(** * guide_fastapi: the patients resource API and the FastAPI demo

    A shallow embedding of
    - [src/Django_guide/patients/views.py]: the two class-based views
      [ListPatientsView] and [DetailPatientView], which configure the REST
      framework's generic views with a serializer class and a queryset;
    - [src/main.py]: the FastAPI demo with the [Item] model and the
      handlers [read_root], [read_item] and [create_item].

    Request and response bodies are JSON objects, modelled as finite maps
    from field names to JSON values. *)

From Stdlib Require Import ZArith Ascii String List Lia.
From Stdlib Require Import Floats.SpecFloat.
From stdpp Require Import base option list gmap strings fin_maps.

#[local] Set Warnings "-register-all,-clear-no-such-hyp".
Local Open Scope string_scope.
Local Open Scope Z_scope.

(** ** JSON values *)

(** A decoded JSON value, as the Python runtime hands it to the framework:
    [None], [bool], [int], [float], [str], [list] and [dict]. A string
    stands for well-formed text; a float may be an infinity or a NaN, which
    the decoder gives for a number out of range and for the literals
    [Infinity] and [NaN]. *)
Inductive json : Type :=
  | JNull
  | JBool (b : bool)
  | JInt (n : Z)
  | JFloat (x : spec_float)
  | JStr (s : string)
  | JArr (l : list json)
  | JObj (l : list (string * json)).

(** A payload: the wire representation of a record, field name to value. *)
Abbreviation payload := (gmap string json).

(** [None] becomes [null] on the wire. *)
Definition json_option {A} (f : A → json) (o : option A) : json :=
  match o with
  | Some a => f a
  | None => JNull
  end.

(** ** Calendar dates and their ISO form *)

Module Date.

Record date : Type := mkdate { year : Z; month : Z; day : Z }.

Definition is_leap (y : Z) : bool :=
  (y mod 4 =? 0) && (negb (y mod 100 =? 0) || (y mod 400 =? 0)).

Definition days_in_month (y m : Z) : Z :=
  match m with
  | 1 | 3 | 5 | 7 | 8 | 10 | 12 => 31
  | 4 | 6 | 9 | 11 => 30
  | 2 => if is_leap y then 29 else 28
  | _ => 0
  end.

Definition valid (d : date) : bool :=
  (0 <=? year d) && (year d <=? 9999)
  && (1 <=? month d) && (month d <=? 12)
  && (1 <=? day d) && (day d <=? days_in_month (year d) (month d)).

(** The value of a decimal digit character. *)
Definition digit (c : ascii) : option Z :=
  let n := Z.of_N (N_of_ascii c) in
  if (48 <=? n) && (n <=? 57) then Some (n - 48) else None.

Definition digit_char (n : Z) : ascii := ascii_of_N (Z.to_N (48 + n)).

(** A run of decimal digits, most significant first. *)
Fixpoint number_from (acc : Z) (cs : list ascii) : option Z :=
  match cs with
  | [] => Some acc
  | c :: cs' =>
      match digit c with
      | Some n => number_from (10 * acc + n) cs'
      | None => None
      end
  end.

Definition number (cs : list ascii) : option Z := number_from 0 cs.

(** [YYYY-MM-DD], exactly ten characters, naming a calendar day. *)
Definition parse (s : string) : option date :=
  match list_ascii_of_string s with
  | [y1; y2; y3; y4; s1; m1; m2; s2; d1; d2] =>
      if Ascii.eqb s1 "-" && Ascii.eqb s2 "-" then
        match number [y1; y2; y3; y4], number [m1; m2], number [d1; d2] with
        | Some y, Some m, Some d =>
            let dt := mkdate y m d in
            if valid dt then Some dt else None
        | _, _, _ => None
        end
      else None
  | _ => None
  end.

Definition digits2 (n : Z) : list ascii :=
  [digit_char (n / 10); digit_char (n mod 10)].

Definition digits4 (n : Z) : list ascii :=
  [digit_char (n / 1000); digit_char (n / 100 mod 10);
   digit_char (n / 10 mod 10); digit_char (n mod 10)].

Definition format (d : date) : string :=
  string_of_list_ascii
    (digits4 (year d) ++ "-"%char :: digits2 (month d)
       ++ "-"%char :: digits2 (day d)).

End Date.

(** ** Field-wise validation

    Both frameworks validate a body field by field and report every failing
    field at once. [validated E A] is either the list of failing fields, each
    with an error of type [E], or a value; [<*>] accumulates the failures. *)

Definition validated (E A : Type) : Type := list (string * E) + A.

Definition v_ap {E A B} (f : validated E (A → B)) (x : validated E A)
  : validated E B :=
  match f, x with
  | inr g, inr a => inr (g a)
  | inr _, inl e => inl e
  | inl e, inr _ => inl e
  | inl e1, inl e2 => inl (e1 ++ e2)%list
  end.

Notation "f <*> x" := (v_ap f x) (at level 50, left associativity).

(** The names of the failing fields. *)
Definition failing {E} (es : list (string * E)) : list string := es.*1.

(** A validation that fails and names the field [f] among the failures. *)
Definition rejects {E A} (f : string) (v : validated E A) : Prop :=
  ∃ es, v = inl es ∧ f ∈ failing es.

(** The names of the failing fields of a validation, none when it
    succeeds. *)
Definition failures {E A} (v : validated E A) : list string :=
  match v with
  | inl es => failing es
  | inr _ => []
  end.

(** ** The record store

    The views reach the database through [Patient.objects]: a table of rows
    keyed by an auto-incremented integer identifier. *)

Record table (F : Type) : Type := mktable { rows : gmap Z F; next_id : Z }.
Arguments mktable {F} _ _.
Arguments rows {F} _.
Arguments next_id {F} _.

(** A stored record: the fields together with the identifier of the row. *)
Record stored (F : Type) : Type := mkstored { pk : Z; fields : F }.
Arguments mkstored {F} _ _.
Arguments pk {F} _.
Arguments fields {F} _.

(** A fresh table; the first identifier it assigns is 1. *)
Definition empty_table {F} : table F := mktable ∅ 1.

(** Every identifier in use lies below the next one to assign. *)
Definition table_wf {F} (db : table F) : Prop :=
  ∀ id, is_Some (rows db !! id) → id < next_id db.

Inductive store_error : Type :=
  | NotFound
  | ValidationError (es : list (string * string)).

(** What a model contributes to the store: the check of its fields. *)
Class Model (F : Type) : Type := { invalid_fields : F → list (string * string) }.

(** What a serializer class contributes to a view. [from_wire_partial] is
    the validation of a body against a stored instance with [partial=True]:
    a field that the body does not hold keeps the value of the instance. *)
Class Serializer (F : Type) : Type := {
  from_wire : payload → validated string F;
  from_wire_partial : F → payload → validated string F;
  to_wire : stored F → payload
}.

Section store.
Context {F : Type} `{Model F}.

Definition store_create (f : F) (db : table F)
  : store_error + stored F * table F :=
  match invalid_fields f with
  | [] =>
      inr (mkstored (next_id db) f,
           mktable (<[next_id db := f]> (rows db)) (next_id db + 1))
  | es => inl (ValidationError es)
  end.

Definition store_get (id : Z) (db : table F) : store_error + stored F :=
  match rows db !! id with
  | Some f => inr (mkstored id f)
  | None => inl NotFound
  end.

Definition store_list (db : table F) : list (stored F) :=
  (λ kf, mkstored kf.1 kf.2) <$> map_to_list (rows db).

Definition store_update (id : Z) (f : F) (db : table F)
  : store_error + stored F * table F :=
  match rows db !! id with
  | None => inl NotFound
  | Some _ =>
      match invalid_fields f with
      | [] => inr (mkstored id f, mktable (<[id := f]> (rows db)) (next_id db))
      | es => inl (ValidationError es)
      end
  end.

Definition store_delete (id : Z) (db : table F) : store_error + table F :=
  match rows db !! id with
  | None => inl NotFound
  | Some _ => inr (mktable (delete id (rows db)) (next_id db))
  end.
End store.

(** ** The generic views of the REST framework

    [views.py] defines no handler of its own: each view class inherits the
    generic views named below and sets [serializer_class] and [queryset]. A
    handler takes the table and returns the response with the table after
    the request. [Metadata] stands for the description of a view that the
    framework gives in answer to OPTIONS; its content is not modelled. *)

Inductive data : Type :=
  | One (p : payload)
  | Many (ps : list payload)
  | Metadata.

Inductive response : Type :=
  | HTTP_200_OK (d : data)
  | HTTP_201_CREATED (p : payload)
  | HTTP_204_NO_CONTENT
  | HTTP_400_BAD_REQUEST (es : list (string * string))
  | HTTP_404_NOT_FOUND
  | HTTP_405_METHOD_NOT_ALLOWED.

Definition status_code (r : response) : Z :=
  match r with
  | HTTP_200_OK _ => 200
  | HTTP_201_CREATED _ => 201
  | HTTP_204_NO_CONTENT => 204
  | HTTP_400_BAD_REQUEST _ => 400
  | HTTP_404_NOT_FOUND => 404
  | HTTP_405_METHOD_NOT_ALLOWED => 405
  end.

Definition error_response (e : store_error) : response :=
  match e with
  | NotFound => HTTP_404_NOT_FOUND
  | ValidationError es => HTTP_400_BAD_REQUEST es
  end.

Section generics.
Context {F : Type} `{Model F} `{Serializer F}.

(** GET on the collection. *)
Definition ListAPIView (db : table F) : response * table F :=
  (HTTP_200_OK (Many (to_wire <$> store_list db)), db).

(** POST on the collection: validate, save, answer with the new record. *)
Definition CreateAPIView (body : payload) (db : table F)
  : response * table F :=
  match from_wire body with
  | inl es => (HTTP_400_BAD_REQUEST es, db)
  | inr f =>
      match store_create f db with
      | inl e => (error_response e, db)
      | inr (r, db') => (HTTP_201_CREATED (to_wire r), db')
      end
  end.

(** GET on an item: look the object up first. *)
Definition RetrieveAPIView (id : Z) (db : table F) : response * table F :=
  match store_get id db with
  | inl e => (error_response e, db)
  | inr r => (HTTP_200_OK (One (to_wire r)), db)
  end.

(** PUT on an item: look the object up, then validate the body against
    it, then save. *)
Definition UpdateAPIView (id : Z) (body : payload) (db : table F)
  : response * table F :=
  match store_get id db with
  | inl e => (error_response e, db)
  | inr _ =>
      match from_wire body with
      | inl es => (HTTP_400_BAD_REQUEST es, db)
      | inr f =>
          match store_update id f db with
          | inl e => (error_response e, db)
          | inr (r, db') => (HTTP_200_OK (One (to_wire r)), db')
          end
      end
  end.

(** PATCH on an item, which [UpdateAPIView] answers as well: the same
    steps with the body validated as a partial update of the object. *)
Definition UpdateAPIView_patch (id : Z) (body : payload) (db : table F)
  : response * table F :=
  match store_get id db with
  | inl e => (error_response e, db)
  | inr r =>
      match from_wire_partial (fields r) body with
      | inl es => (HTTP_400_BAD_REQUEST es, db)
      | inr f =>
          match store_update id f db with
          | inl e => (error_response e, db)
          | inr (r', db') => (HTTP_200_OK (One (to_wire r')), db')
          end
      end
  end.

(** OPTIONS, which every view of the framework answers. *)
Definition APIView_options (db : table F) : response * table F :=
  (HTTP_200_OK Metadata, db).

(** DELETE on an item. *)
Definition DestroyAPIView (id : Z) (db : table F) : response * table F :=
  match store_get id db with
  | inl e => (error_response e, db)
  | inr r =>
      match store_delete (pk r) db with
      | inl e => (error_response e, db)
      | inr db' => (HTTP_204_NO_CONTENT, db')
      end
  end.
End generics.

(** The request methods that a view of the framework dispatches on (its
    [http_method_names]). The attribute [allowed_methods] that the two view
    classes set is not consulted by the dispatch: a view answers every
    method for which it inherits a handler. *)
Inductive method : Type :=
  GET | HEAD | POST | PUT | PATCH | DELETE | OPTIONS | TRACE.

(** ** The patients resource *)

Module Patients.

(** Modelled from the spec: the [Patient] model ([patients/models.py] is not
    among the sources). The field names are those of
    [Patient.objects.create] in [doctors/tests.py]; the types are those of
    the spec's data model: strings, and a date for [date_of_birth]. *)
Record Patient : Type := mkPatient {
  first_name : string;
  last_name : string;
  date_of_birth : Date.date;
  contact_number : string;
  email : string;
  address : string;
  medical_history : string
}.

(** The declared payload fields, the identifier apart. *)
Definition patient_fields : list string :=
  ["first_name"; "last_name"; "date_of_birth"; "contact_number"; "email";
   "address"; "medical_history"].

Definition blank (f s : string) : list (string * string) :=
  match s with
  | EmptyString => [(f, "This field may not be blank.")]
  | String _ _ => []
  end.

(** Modelled from the spec: the store's check of a patient's fields, the
    invariant that every required field is non-empty. The store signals a
    [ValidationError] that carries the names of the failing fields. *)
#[export] Instance Patient_model : Model Patient := {
  invalid_fields p :=
    (blank "first_name" (first_name p) ++ blank "last_name" (last_name p)
     ++ blank "contact_number" (contact_number p) ++ blank "email" (email p)
     ++ blank "address" (address p)
     ++ blank "medical_history" (medical_history p))%list
}.

(** A required string field of a payload. *)
Definition text_field (f : string) (P : payload) : validated string string :=
  match P !! f with
  | None => inl [(f, "This field is required.")]
  | Some (JStr s) => inr s
  | Some _ => inl [(f, "Not a valid string.")]
  end.

(** A required date field of a payload: an ISO date string. *)
Definition date_field (f : string) (P : payload)
  : validated string Date.date :=
  match P !! f with
  | None => inl [(f, "This field is required.")]
  | Some (JStr s) =>
      match Date.parse s with
      | Some d => inr d
      | None => inl [(f, "Date has wrong format.")]
      end
  | Some _ => inl [(f, "Date has wrong format.")]
  end.

(** A field of a partial update: the stored value when the body does not
    hold the field, the validated one when it does. *)
Definition partial_field {A} (field : string → payload → validated string A)
    (f : string) (old : A) (P : payload) : validated string A :=
  match P !! f with
  | None => inr old
  | Some _ => field f P
  end.

(** Modelled from the spec: [PatientSerializer] ([patients/serializers.py]
    is not among the sources). [from_wire] rejects a payload that misses a
    required field or holds a value of the wrong type, and ignores unknown
    fields; [to_wire] gives every declared field and the identifier. *)
#[export] Instance PatientSerializer : Serializer Patient := {
  from_wire P :=
    inr mkPatient
      <*> text_field "first_name" P
      <*> text_field "last_name" P
      <*> date_field "date_of_birth" P
      <*> text_field "contact_number" P
      <*> text_field "email" P
      <*> text_field "address" P
      <*> text_field "medical_history" P;
  from_wire_partial old P :=
    inr mkPatient
      <*> partial_field text_field "first_name" (first_name old) P
      <*> partial_field text_field "last_name" (last_name old) P
      <*> partial_field date_field "date_of_birth" (date_of_birth old) P
      <*> partial_field text_field "contact_number" (contact_number old) P
      <*> partial_field text_field "email" (email old) P
      <*> partial_field text_field "address" (address old) P
      <*> partial_field text_field "medical_history" (medical_history old) P;
  to_wire r :=
    let p := fields r in
    <["id" := JInt (pk r)]>
    (<["first_name" := JStr (first_name p)]>
    (<["last_name" := JStr (last_name p)]>
    (<["date_of_birth" := JStr (Date.format (date_of_birth p))]>
    (<["contact_number" := JStr (contact_number p)]>
    (<["email" := JStr (email p)]>
    (<["address" := JStr (address p)]>
    (<["medical_history" := JStr (medical_history p)]> ∅)))))))
}.

(** [class ListPatientsView(ListAPIView, CreateAPIView)]: the handlers
    [get] and [post] are inherited; HEAD goes to [get] (the server sends
    the answer without its body); the other methods have no handler. *)
Definition ListPatientsView (m : method) (body : payload) (db : table Patient)
  : response * table Patient :=
  match m with
  | GET | HEAD => ListAPIView db
  | POST => CreateAPIView body db
  | OPTIONS => APIView_options db
  | PUT | PATCH | DELETE | TRACE => (HTTP_405_METHOD_NOT_ALLOWED, db)
  end.

(** [class DetailPatientView(RetrieveAPIView, UpdateAPIView, DestroyAPIView)]:
    the handlers [get], [put], [patch] and [delete] are inherited, [patch]
    with [put] from [UpdateAPIView], although [allowed_methods] names only
    GET, PUT and DELETE. *)
Definition DetailPatientView (m : method) (id : Z) (body : payload)
    (db : table Patient) : response * table Patient :=
  match m with
  | GET | HEAD => RetrieveAPIView id db
  | PUT => UpdateAPIView id body db
  | PATCH => UpdateAPIView_patch id body db
  | DELETE => DestroyAPIView id db
  | OPTIONS => APIView_options db
  | POST | TRACE => (HTTP_405_METHOD_NOT_ALLOWED, db)
  end.

(** The methods of the item view whose handler fetches the object before
    anything else. *)
Definition object_methods : list method := [GET; HEAD; PUT; PATCH; DELETE].

(** The five operations, named as in the route comments of [views.py]. *)
Definition list_patients := ListPatientsView GET ∅.
Definition create_patient (body : payload) := ListPatientsView POST body.
Definition retrieve_patient (id : Z) := DetailPatientView GET id ∅.
Definition update_patient (id : Z) (body : payload) :=
  DetailPatientView PUT id body.
Definition delete_patient (id : Z) := DetailPatientView DELETE id ∅.

(** The patient of the spec's scenario and of [doctors/tests.py]. *)
Definition juan : payload :=
  <["first_name" := JStr "Juan"]>
  (<["last_name" := JStr "Perez"]>
  (<["date_of_birth" := JStr "1980-01-01"]>
  (<["contact_number" := JStr "1234567890"]>
  (<["email" := JStr "juan@example.com"]>
  (<["address" := JStr "123 Main St"]>
  (<["medical_history" := JStr "None"]> ∅)))))).

(** A routed request, after the route comments of [views.py]: the
    collection path goes to [ListPatientsView], an item path with its
    identifier to [DetailPatientView]. *)
Inductive request : Type :=
  | Collection (m : method) (body : payload)
  | Detail (m : method) (id : Z) (body : payload).

Definition dispatch (r : request) (db : table Patient)
  : response * table Patient :=
  match r with
  | Collection m body => ListPatientsView m body db
  | Detail m id body => DetailPatientView m id body db
  end.

(** A sequence of requests, each handled on the table the previous one
    left. *)
Fixpoint run (rs : list request) (db : table Patient)
  : list response * table Patient :=
  match rs with
  | [] => ([], db)
  | r :: rs' =>
      let a := dispatch r db in
      let rest := run rs' a.2 in
      (a.1 :: rest.1, rest.2)
  end.

End Patients.

(** ** The FastAPI demo ([main.py]) *)

Module Main.

(** A Python [float]: an IEEE 754 binary64 value. *)
Abbreviation float := spec_float.

(** The value [float(n)] of an integer, rounded to the nearest float. *)
Definition float_of_int (n : Z) : float := binary_normalize 53 1024 n 0 false.

(** The validators that pydantic attaches to the annotations [str], [float]
    and [bool]. Which values they coerce (a numeric string to a float, say)
    differs between the releases of the library and is not written in this
    repository, so the model takes them as they come. [implicit_optional]
    tells whether a field declared [T = None] also accepts an explicit
    [null], as the first major release has it. *)
Class Pydantic : Type := {
  validate_str : json → option string;
  validate_float : json → option float;
  validate_bool : json → option bool;
  implicit_optional : bool
}.





(** Validators without coercion other than integer to float. *)
Definition strict : Pydantic := {|
  validate_str v := match v with JStr s => Some s | _ => None end;
  validate_float v :=
    match v with
    | JFloat x => Some x
    | JInt n => Some (float_of_int n)
    | _ => None
    end;
  validate_bool v := match v with JBool b => Some b | _ => None end;
  implicit_optional := false
|}.

(** [class Item(BaseModel)]. *)
Record Item : Type := mkItem {
  name : string;
  description : option string;
  price : float;
  tax : option float;
  is_offer : option bool
}.

Inductive error_kind : Type := missing | invalid.

Definition is_null (v : json) : bool :=
  match v with
  | JNull => true
  | _ => false
  end.

(** A field without default: [name: str]. *)
Definition required {T} (f : string) (validate : json → option T)
    (body : payload) : validated error_kind T :=
  match body !! f with
  | None => inl [(f, missing)]
  | Some v =>
      match validate v with
      | Some x => inr x
      | None => inl [(f, invalid)]
      end
  end.

(** A field with the default [None]: [description: str = None]. The
    default is not validated. *)
Definition optional `{Pydantic} {T} (f : string) (validate : json → option T)
    (body : payload) : validated error_kind (option T) :=
  match body !! f with
  | None => inr None
  | Some v =>
      if implicit_optional && is_null v then inr None
      else
        match validate v with
        | Some x => inr (Some x)
        | None => inl [(f, invalid)]
        end
  end.

(** The validation of a request body against [Item]; fields that the model
    does not declare are ignored. *)
Definition Item_validate `{Pydantic} (body : payload)
  : validated error_kind Item :=
  inr mkItem
    <*> required "name" validate_str body
    <*> optional "description" validate_str body
    <*> required "price" validate_float body
    <*> optional "tax" validate_float body
    <*> optional "is_offer" validate_bool body.

(** The JSON form of a returned [Item]: every field of the model, [None]
    as [null]. *)
Definition jsonable_encoder (item : Item) : payload :=
  <["name" := JStr (name item)]>
  (<["description" := json_option JStr (description item)]>
  (<["price" := JFloat (price item)]>
  (<["tax" := json_option JFloat (tax item)]>
  (<["is_offer" := json_option JBool (is_offer item)]> ∅)))).

(** [@app.get("/")]. *)
Definition read_root : payload := {["message" := JStr "Hello World"]}.

(** [@app.get("/items/{item_id}")]. *)
Definition read_item (item_id : Z) (q : option string) : payload :=
  <["item_id" := JInt item_id]> (<["q" := json_option JStr q]> ∅).

(** [@app.post("/items/")]. *)
Definition create_item (item : Item) : Item := item.


(** A routed request, its path and query parameters converted. *)
Inductive request : Type :=
  | GET_root
  | GET_items (item_id : Z) (q : option string)
  | POST_items (body : payload).

Inductive reply : Type :=
  | OK (p : payload)
  | UnprocessableEntity (es : list (string * error_kind))
  | InternalServerError.

(** A float that JSON can write: not an infinity and not a NaN. *)
Definition is_finite (x : float) : bool :=
  match x with
  | S754_zero _ | S754_finite _ _ _ => true
  | S754_infinity _ | S754_nan => false
  end.

(** A value that the JSON response can encode: the encoder refuses a float
    that is out of range, at any depth. *)
Fixpoint json_compliant (v : json) : bool :=
  match v with
  | JFloat x => is_finite x
  | JArr l => forallb json_compliant l
  | JObj l => forallb (λ kv, match kv with (_, w) => json_compliant w end) l
  | JNull | JBool _ | JInt _ | JStr _ => true
  end.

Definition compliant (p : payload) : bool :=
  bool_decide (map_Forall (λ _ v, json_compliant v = true) p).

(** The response for a handler's return value: the payload when it can be
    encoded, else the error is not handled and the service answers 500. *)
Definition respond (p : payload) : reply :=
  if compliant p then OK p else InternalServerError.

(** An item whose floats JSON can write. *)
Definition Item_finite (item : Item) : bool :=
  is_finite (price item)
  && match tax item with
     | Some t => is_finite t
     | None => true
     end.

(** The handlers of the application. *)
Inductive handler : Type := h_read_root | h_read_item | h_create_item.

(** The application: the body of a POST is validated before the handler
    is called, and the handler's return value is encoded into the response.
    The result names the handler that ran, if one did, and gives the
    reply. *)
Definition app `{Pydantic} (r : request) : option handler * reply :=
  match r with
  | GET_root => (Some h_read_root, respond read_root)
  | GET_items item_id q => (Some h_read_item, respond (read_item item_id q))
  | POST_items body =>
      match Item_validate body with
      | inl es => (None, UnprocessableEntity es)
      | inr item =>
          (Some h_create_item, respond (jsonable_encoder (create_item item)))
      end
  end.

(** The service over a sequence of requests: there is no module-level
    state, each request is answered on its own. *)
Definition serve `{Pydantic} (rs : list request) : list reply :=
  (λ r, (app r).2) <$> rs.

(** [{"name": "Foo", "price": 35.5}]. *)
Definition foo : payload :=
  <["name" := JStr "Foo"]> (<["price" := JFloat (S754_finite false 71 (-1))]> ∅).



(** The fields of [Item], in the order of the class body. *)
Definition item_fields : list string :=
  ["name"; "description"; "price"; "tax"; "is_offer"].


End Main.

(** * Properties *)

(** ** Dates: parsing and formatting are inverse to each other *)

Module DateFacts.
Import Date.

Example parse_1980 : parse "1980-01-01" = Some (mkdate 1980 1 1).
Proof. reflexivity. Qed.

Example parse_leap : parse "2024-02-29" = Some (mkdate 2024 2 29).
Proof. reflexivity. Qed.

Example parse_not_leap : parse "1900-02-29" = None.
Proof. reflexivity. Qed.

Example parse_short : parse "1980-1-1" = None.
Proof. reflexivity. Qed.

Example format_1980 : format (mkdate 1980 1 1) = "1980-01-01".
Proof. reflexivity. Qed.

Lemma digit_range c n : digit c = Some n → 0 <= n < 10.
Proof.
  unfold digit.
  destruct (Z.leb_spec 48 (Z.of_N (N_of_ascii c))),
    (Z.leb_spec (Z.of_N (N_of_ascii c)) 57); simpl; intros [= <-]; lia.
Qed.

Lemma digit_char_digit c n : digit c = Some n → digit_char n = c.
Proof.
  unfold digit, digit_char.
  destruct (Z.leb_spec 48 (Z.of_N (N_of_ascii c))),
    (Z.leb_spec (Z.of_N (N_of_ascii c)) 57); simpl; intros [= <-].
  replace (48 + (Z.of_N (N_of_ascii c) - 48)) with (Z.of_N (N_of_ascii c))
    by lia.
  rewrite N2Z.id. apply ascii_N_embedding.
Qed.

Lemma digit_digit_char n : 0 <= n < 10 → digit (digit_char n) = Some n.
Proof.
  intros Hn. unfold digit, digit_char.
  rewrite N_ascii_embedding by lia.
  rewrite Z2N.id by lia.
  destruct (Z.leb_spec 48 (48 + n)), (Z.leb_spec (48 + n) 57);
    simpl; try lia.
  f_equal. lia.
Qed.

Lemma number2 a b n :
  number [a; b] = Some n →
  ∃ x y, digit a = Some x ∧ digit b = Some y ∧ n = 10 * x + y.
Proof.
  unfold number. simpl.
  destruct (digit a) as [x|]; [|done].
  destruct (digit b) as [y|]; [|done].
  intros [= <-]. exists x, y. repeat split; lia.
Qed.

Lemma number4 a b c e n :
  number [a; b; c; e] = Some n →
  ∃ x y z w, digit a = Some x ∧ digit b = Some y ∧ digit c = Some z
    ∧ digit e = Some w ∧ n = 1000 * x + 100 * y + 10 * z + w.
Proof.
  unfold number. simpl.
  destruct (digit a) as [x|]; [|done].
  destruct (digit b) as [y|]; [|done].
  destruct (digit c) as [z|]; [|done].
  destruct (digit e) as [w|]; [|done].
  intros [= <-]. exists x, y, z, w. repeat split; lia.
Qed.

Lemma digits2_number a b n : number [a; b] = Some n → digits2 n = [a; b].
Proof.
  intros (x & y & Hx & Hy & ->)%number2.
  pose proof (digit_range _ _ Hx). pose proof (digit_range _ _ Hy).
  rewrite <- (digit_char_digit _ _ Hx), <- (digit_char_digit _ _ Hy).
  unfold digits2. repeat f_equal; Z.div_mod_to_equations; lia.
Qed.

Lemma digits4_number a b c e n :
  number [a; b; c; e] = Some n → digits4 n = [a; b; c; e].
Proof.
  intros (x & y & z & w & Hx & Hy & Hz & Hw & ->)%number4.
  pose proof (digit_range _ _ Hx). pose proof (digit_range _ _ Hy).
  pose proof (digit_range _ _ Hz). pose proof (digit_range _ _ Hw).
  rewrite <- (digit_char_digit _ _ Hx), <- (digit_char_digit _ _ Hy),
    <- (digit_char_digit _ _ Hz), <- (digit_char_digit _ _ Hw).
  unfold digits4. repeat f_equal; Z.div_mod_to_equations; lia.
Qed.

Lemma number_digits2 n : 0 <= n < 100 → number (digits2 n) = Some n.
Proof.
  intros Hn. unfold number, digits2. simpl.
  rewrite !digit_digit_char by (Z.div_mod_to_equations; lia).
  f_equal. Z.div_mod_to_equations; lia.
Qed.

Lemma number_digits4 n : 0 <= n < 10000 → number (digits4 n) = Some n.
Proof.
  intros Hn. unfold number, digits4. simpl.
  rewrite !digit_digit_char by (Z.div_mod_to_equations; lia).
  f_equal. Z.div_mod_to_equations; lia.
Qed.

Lemma parse_inv s d :
  parse s = Some d →
  ∃ y1 y2 y3 y4 m1 m2 d1 d2,
    list_ascii_of_string s
      = [y1; y2; y3; y4; "-"%char; m1; m2; "-"%char; d1; d2]
    ∧ number [y1; y2; y3; y4] = Some (year d)
    ∧ number [m1; m2] = Some (month d)
    ∧ number [d1; d2] = Some (day d)
    ∧ valid d = true.
Proof.
  unfold parse.
  destruct (list_ascii_of_string s)
    as [|y1 [|y2 [|y3 [|y4 [|s1 [|m1 [|m2 [|s2 [|d1 [|d2 [|? ?]]]]]]]]]]];
    try done.
  destruct (Ascii.eqb_spec s1 "-"); [|done].
  destruct (Ascii.eqb_spec s2 "-"); [|done].
  cbn [andb]. subst s1 s2.
  destruct (number [y1; y2; y3; y4]) as [y|] eqn:Hy; [|done].
  destruct (number [m1; m2]) as [m|] eqn:Hm; [|done].
  destruct (number [d1; d2]) as [dd|] eqn:Hd; [|done].
  destruct (valid _) eqn:Hv; [|done].
  intros [= <-]. by exists y1, y2, y3, y4, m1, m2, d1, d2.
Qed.

Lemma parse_valid s d : parse s = Some d → valid d = true.
Proof. by intros (? & ? & ? & ? & ? & ? & ? & ? & _ & _ & _ & _ & ?)%parse_inv. Qed.

(** Formatting a parsed date gives the string back. *)
Lemma format_parse s d : parse s = Some d → format d = s.
Proof.
  intros (y1 & y2 & y3 & y4 & m1 & m2 & d1 & d2 & Hs & Hy & Hm & Hd & _)%parse_inv.
  unfold format.
  rewrite (digits4_number _ _ _ _ _ Hy), (digits2_number _ _ _ Hm),
    (digits2_number _ _ _ Hd).
  cbn [app]. rewrite <- Hs. apply string_of_list_ascii_of_string.
Qed.

Lemma valid_bounds d :
  valid d = true →
  0 <= year d < 10000 ∧ 0 <= month d < 100 ∧ 0 <= day d < 100.
Proof.
  unfold valid, days_in_month. intros Hv.
  repeat (apply andb_prop in Hv as [Hv ?]).
  repeat match goal with
  | H : (_ <=? _) = true |- _ => apply Z.leb_le in H
  end.
  destruct (month d) as [|[[[[|[]|]|[]|]|[[]|[]|]|]|[[[]|[]|]|[[]|[]|]|]|]|];
    destruct (is_leap (year d)); lia.
Qed.

(** Parsing the ISO form of a calendar date gives the date back. *)
Lemma parse_format d : valid d = true → parse (format d) = Some d.
Proof.
  intros Hv. destruct (valid_bounds d Hv) as (Hy & Hm & Hd).
  unfold parse, format. rewrite list_ascii_of_string_of_list_ascii.
  cbn [digits4 digits2 app Ascii.eqb Bool.eqb andb].
  change [digit_char (year d / 1000); digit_char (year d / 100 mod 10);
          digit_char (year d / 10 mod 10); digit_char (year d mod 10)]
    with (digits4 (year d)).
  change [digit_char (month d / 10); digit_char (month d mod 10)]
    with (digits2 (month d)).
  change [digit_char (day d / 10); digit_char (day d mod 10)]
    with (digits2 (day d)).
  rewrite number_digits4, !number_digits2 by done.
  destruct d as [y m dd]. simpl in *. by rewrite Hv.
Qed.

End DateFacts.

(** ** Validation: failures accumulate *)

Lemma rejects_ap_l {E A B} f (g : validated E (A → B)) (x : validated E A) :
  rejects f g → rejects f (g <*> x).
Proof.
  intros (es & -> & Hf). destruct x as [es'|a]; simpl.
  - exists (es ++ es')%list. split; [done|].
    unfold failing in *. rewrite fmap_app. set_solver.
  - by exists es.
Qed.

Lemma rejects_ap_r {E A B} f (g : validated E (A → B)) (x : validated E A) :
  rejects f x → rejects f (g <*> x).
Proof.
  intros (es & -> & Hf). destruct g as [es'|g]; simpl.
  - exists (es' ++ es)%list. split; [done|].
    unfold failing in *. rewrite fmap_app. set_solver.
  - by exists es.
Qed.

Lemma ap_inr {E A B} (g : validated E (A → B)) (x : validated E A) b :
  g <*> x = inr b → ∃ h a, g = inr h ∧ x = inr a ∧ b = h a.
Proof.
  destruct g as [?|h], x as [?|a]; simpl; try done.
  intros [= <-]. by exists h, a.
Qed.

Lemma ap_inl_within {E A B} (fs : list string)
    (g : validated E (A → B)) (x : validated E A) :
  (∀ es, g = inl es → failing es ⊆ fs) →
  (∀ es, x = inl es → failing es ⊆ fs) →
  ∀ es, g <*> x = inl es → failing es ⊆ fs.
Proof.
  intros Hg Hx es. destruct g as [e1|h], x as [e2|a]; simpl; intros [= <-].
  - unfold failing in *. rewrite fmap_app.
    specialize (Hg e1 eq_refl). specialize (Hx e2 eq_refl). set_solver.
  - by apply Hg.
  - by apply Hx.
Qed.

(** ** The store: identifiers are assigned once *)

Section store_facts.
Context {F : Type} `{Model F}.

Lemma empty_table_wf : table_wf (@empty_table F).
Proof. intros id [f Hf]. cbn in Hf. by rewrite lookup_empty in Hf. Qed.

(** On a well-formed table the identifier of a new record is not in use, so
    no stored record is overwritten. *)
Lemma next_id_fresh (db : table F) : table_wf db → rows db !! next_id db = None.
Proof.
  intros Hwf. destruct (rows db !! next_id db) eqn:Hid; [|done].
  assert (next_id db < next_id db) by (apply Hwf; by eexists). lia.
Qed.

Lemma store_create_wf (f : F) (db : table F) r db' :
  table_wf db → store_create f db = inr (r, db') → table_wf db'.
Proof.
  intros Hwf. unfold store_create.
  destruct (invalid_fields f); [|done]. intros [= <- <-] id. cbn.
  rewrite lookup_insert. case_decide as Hid.
  - subst. lia.
  - intros Hs. specialize (Hwf id Hs). lia.
Qed.

Lemma store_update_wf id (f : F) (db : table F) r db' :
  table_wf db → store_update id f db = inr (r, db') → table_wf db'.
Proof.
  intros Hwf. unfold store_update.
  destruct (rows db !! id) eqn:Hid; [|done].
  destruct (invalid_fields f); [|done]. intros [= <- <-] k. cbn.
  rewrite lookup_insert. case_decide as Hk.
  - subst. intros _. apply Hwf. by eexists.
  - apply Hwf.
Qed.

Lemma store_delete_wf id (db db' : table F) :
  table_wf db → store_delete id db = inr db' → table_wf db'.
Proof.
  intros Hwf. unfold store_delete.
  destruct (rows db !! id) eqn:Hid; [|done]. intros [= <-] k. cbn.
  rewrite lookup_delete. case_decide; [by intros []|apply Hwf].
Qed.
End store_facts.

(** ** The patients resource *)

Module PatientsFacts.
Import Patients.

Lemma text_field_inr f P s :
  text_field f P = inr s ↔ P !! f = Some (JStr s).
Proof.
  unfold text_field. destruct (P !! f) as [[]|]; naive_solver.
Qed.

Lemma date_field_inr f P d :
  date_field f P = inr d ↔ ∃ s, P !! f = Some (JStr s) ∧ Date.parse s = Some d.
Proof.
  unfold date_field. destruct (P !! f) as [[| | | |s| |]|]; try naive_solver.
  destruct (Date.parse s) eqn:?; naive_solver.
Qed.

Lemma text_field_missing f P : P !! f = None → rejects f (text_field f P).
Proof.
  intros HP. unfold text_field. rewrite HP.
  eexists. split; [done|]. unfold failing. set_solver.
Qed.

Lemma date_field_missing f P : P !! f = None → rejects f (date_field f P).
Proof.
  intros HP. unfold date_field. rewrite HP.
  eexists. split; [done|]. unfold failing. set_solver.
Qed.

(** What an accepted payload holds. *)
Lemma from_wire_inr P p :
  from_wire P = inr p →
  P !! "first_name" = Some (JStr (first_name p))
  ∧ P !! "last_name" = Some (JStr (last_name p))
  ∧ (∃ s, P !! "date_of_birth" = Some (JStr s)
        ∧ Date.parse s = Some (date_of_birth p))
  ∧ P !! "contact_number" = Some (JStr (contact_number p))
  ∧ P !! "email" = Some (JStr (email p))
  ∧ P !! "address" = Some (JStr (address p))
  ∧ P !! "medical_history" = Some (JStr (medical_history p)).
Proof.
  cbn [from_wire PatientSerializer].
  intros (h7 & a7 & K7 & E7%text_field_inr & ->)%ap_inr.
  apply ap_inr in K7 as (h6 & a6 & K6 & E6%text_field_inr & ->).
  apply ap_inr in K6 as (h5 & a5 & K5 & E5%text_field_inr & ->).
  apply ap_inr in K5 as (h4 & a4 & K4 & E4%text_field_inr & ->).
  apply ap_inr in K4 as (h3 & a3 & K3 & E3%date_field_inr & ->).
  apply ap_inr in K3 as (h2 & a2 & K2 & E2%text_field_inr & ->).
  apply ap_inr in K2 as (h1 & a1 & K1 & E1%text_field_inr & ->).
  injection K1 as <-. done.
Qed.

(** What [to_wire] puts under each field. *)
Lemma to_wire_lookup (r : stored Patient) :
  to_wire r !! "id" = Some (JInt (pk r))
  ∧ to_wire r !! "first_name" = Some (JStr (first_name (fields r)))
  ∧ to_wire r !! "last_name" = Some (JStr (last_name (fields r)))
  ∧ to_wire r !! "date_of_birth"
      = Some (JStr (Date.format (date_of_birth (fields r))))
  ∧ to_wire r !! "contact_number" = Some (JStr (contact_number (fields r)))
  ∧ to_wire r !! "email" = Some (JStr (email (fields r)))
  ∧ to_wire r !! "address" = Some (JStr (address (fields r)))
  ∧ to_wire r !! "medical_history" = Some (JStr (medical_history (fields r))).
Proof. repeat split; reflexivity. Qed.

Lemma to_wire_dom (r : stored Patient) :
  dom (to_wire r) = {["id"]} ∪ list_to_set patient_fields.
Proof.
  cbn [to_wire PatientSerializer]. rewrite !dom_insert_L, dom_empty_L.
  unfold patient_fields. cbn [list_to_set foldr]. set_solver.
Qed.

Lemma elem_of_patient_fields f :
  f ∈ patient_fields ↔
  f = "first_name" ∨ f = "last_name" ∨ f = "date_of_birth"
  ∨ f = "contact_number" ∨ f = "email" ∨ f = "address"
  ∨ f = "medical_history".
Proof. unfold patient_fields. set_solver. Qed.

(** The record that comes out of [from_wire] goes back to the submitted
    values, field by field. *)
Lemma to_wire_from_wire P p id f :
  from_wire P = inr p → f ∈ patient_fields →
  to_wire (mkstored id p) !! f = P !! f.
Proof.
  intros (H1 & H2 & (s & H3 & Hs) & H4 & H5 & H6 & H7)%from_wire_inr
    Hf%elem_of_patient_fields.
  destruct (to_wire_lookup (mkstored id p))
    as (_ & T1 & T2 & T3 & T4 & T5 & T6 & T7).
  cbn [fields] in *.
  rewrite (DateFacts.format_parse _ _ Hs) in T3.
  destruct Hf as [->|[->|[->|[->|[->|[->| ->]]]]]]; congruence.
Qed.

(** An accepted record is accepted again from its own wire form. *)
Lemma from_wire_to_wire (r : stored Patient) :
  Date.valid (date_of_birth (fields r)) = true →
  from_wire (to_wire r) = inr (fields r).
Proof.
  intros Hv.
  destruct (to_wire_lookup r) as (_ & T1 & T2 & T3 & T4 & T5 & T6 & T7).
  cbn [from_wire PatientSerializer]. unfold text_field, date_field.
  rewrite T1, T2, T3, T4, T5, T6, T7.
  rewrite (DateFacts.parse_format _ Hv).
  by destruct r as [id []].
Qed.

Lemma from_wire_missing P f :
  f ∈ patient_fields → P !! f = None → rejects f (from_wire P).
Proof.
  intros Hf%elem_of_patient_fields HP.
  cbn [from_wire PatientSerializer].
  destruct Hf as [->|[->|[->|[->|[->|[->| ->]]]]]];
    repeat first
      [ apply rejects_ap_r;
        first [ by apply text_field_missing | by apply date_field_missing ]
      | apply rejects_ap_l ].
Qed.

Lemma text_field_within f P es :
  text_field f P = inl es → failing es = [f].
Proof.
  unfold text_field. destruct (P !! f) as [[]|]; by intros [= <-].
Qed.

Lemma date_field_within f P es :
  date_field f P = inl es → failing es = [f].
Proof.
  unfold date_field. destruct (P !! f) as [[| | | |s| |]|]; try by intros [= <-].
  destruct (Date.parse s); by intros [= <-].
Qed.

(** The failures of [from_wire] name declared fields only. *)
Lemma from_wire_within P es :
  from_wire P = inl es → failing es ⊆ patient_fields.
Proof.
  cbn [from_wire PatientSerializer]. revert es.
  repeat apply ap_inl_within; try done; intros es Hes;
    first [ apply text_field_within in Hes | apply date_field_within in Hes ];
    rewrite Hes; unfold patient_fields; set_solver.
Qed.

(** Creating an accepted patient, step by step. *)
Lemma create_patient_ok P p (db : table Patient) :
  from_wire P = inr p → invalid_fields p = [] →
  create_patient P db
  = (HTTP_201_CREATED (to_wire (mkstored (next_id db) p)),
     mktable (<[next_id db := p]> (rows db)) (next_id db + 1)).
Proof.
  intros HP Hp. unfold create_patient, ListPatientsView, CreateAPIView.
  rewrite HP. unfold store_create. by rewrite Hp.
Qed.

Lemma retrieve_patient_found id p (db : table Patient) :
  rows db !! id = Some p →
  retrieve_patient id db = (HTTP_200_OK (One (to_wire (mkstored id p))), db).
Proof.
  intros Hid. unfold retrieve_patient, DetailPatientView, RetrieveAPIView,
    store_get. by rewrite Hid.
Qed.

Lemma retrieve_patient_absent id (db : table Patient) :
  rows db !! id = None → retrieve_patient id db = (HTTP_404_NOT_FOUND, db).
Proof.
  intros Hid. unfold retrieve_patient, DetailPatientView, RetrieveAPIView,
    store_get. by rewrite Hid.
Qed.

(** The scenario of the spec: create, retrieve, delete, retrieve. *)
Example scenario_status_codes :
  let c := create_patient juan empty_table in
  let g := retrieve_patient 1 c.2 in
  let d := delete_patient 1 g.2 in
  let g' := retrieve_patient 1 d.2 in
  (status_code c.1, status_code g.1, status_code d.1, status_code g'.1)
  = (201, 200, 204, 404).
Proof. reflexivity. Qed.

(** An update of a stored record with an empty body is a validation
    failure, not a missing record. *)
Example update_stored_invalid :
  status_code
    (update_patient 1 ∅ (create_patient juan empty_table).2).1 = 400.
Proof. reflexivity. Qed.

(** The views answer the methods they do not allow with 405. *)
Example detail_view_post :
  (DetailPatientView POST 1 juan empty_table).1 = HTTP_405_METHOD_NOT_ALLOWED.
Proof. reflexivity. Qed.

End PatientsFacts.

Module PatientsClaims.
Import Patients PatientsFacts.

(** C1. A valid patient payload [P] (the serializer accepts it and the
    store accepts its fields) is created with status 201; retrieving the
    identifier that the created payload carries gives status 200 and the
    same payload, which agrees with [P] on every declared patient field and
    holds nothing but those fields and the store-assigned [id]. *)
Theorem create_then_retrieve P p (db : table Patient) :
  from_wire P = inr p → invalid_fields p = [] →
  ∃ id R db',
    create_patient P db = (HTTP_201_CREATED R, db')
    ∧ R !! "id" = Some (JInt id)
    ∧ retrieve_patient id db' = (HTTP_200_OK (One R), db')
    ∧ (∀ f, f ∈ patient_fields → R !! f = P !! f)
    ∧ dom R = {["id"]} ∪ list_to_set patient_fields.
Proof.
  intros HP Hp.
  exists (next_id db), (to_wire (mkstored (next_id db) p)).
  eexists. split; [by apply create_patient_ok|].
  split; [reflexivity|].
  split; [apply retrieve_patient_found; cbn [rows]; apply lookup_insert_eq|].
  split; [|apply to_wire_dom].
  intros f Hf. by apply to_wire_from_wire.
Qed.

Lemma create_then_retrieve_witness :
  ∃ id R db',
    create_patient juan empty_table = (HTTP_201_CREATED R, db')
    ∧ R !! "id" = Some (JInt id)
    ∧ retrieve_patient id db' = (HTTP_200_OK (One R), db')
    ∧ (∀ f, f ∈ patient_fields → R !! f = juan !! f)
    ∧ dom R = {["id"]} ∪ list_to_set patient_fields.
Proof.
  apply (create_then_retrieve juan
           (mkPatient "Juan" "Perez" (Date.mkdate 1980 1 1) "1234567890"
              "juan@example.com" "123 Main St" "None") empty_table);
    reflexivity.
Defined.

(** C2. For a payload [P] that [from_wire] accepts, as the record [p]:
    serialising [p] (under whatever identifier the store gave it) and
    deserialising again gives the result of [from_wire P]. *)
Theorem from_wire_round_trip (P : payload) (p : Patient) (id : Z) :
  from_wire P = inr p →
  from_wire (to_wire (mkstored id p)) = from_wire P.
Proof.
  intros HP. rewrite HP.
  destruct (from_wire_inr _ _ HP) as (_ & _ & (s & _ & Hs) & _).
  apply (from_wire_to_wire (mkstored id p)). cbn [fields].
  by apply DateFacts.parse_valid with s.
Qed.

Lemma from_wire_round_trip_witness :
  from_wire (to_wire (mkstored 1
     (mkPatient "Juan" "Perez" (Date.mkdate 1980 1 1) "1234567890"
        "juan@example.com" "123 Main St" "None")))
  = from_wire juan.
Proof. apply (from_wire_round_trip juan _ 1). reflexivity. Defined.

(** C3. Deleting a stored patient answers 204 and removes the row from the
    table; retrieving the same identifier afterwards answers 404, and the
    list of stored records no longer holds it. *)
Theorem delete_then_retrieve id (db : table Patient) :
  is_Some (rows db !! id) →
  ∃ db',
    delete_patient id db = (HTTP_204_NO_CONTENT, db')
    ∧ status_code (delete_patient id db).1 = 204
    ∧ retrieve_patient id db' = (HTTP_404_NOT_FOUND, db')
    ∧ status_code (retrieve_patient id db').1 = 404
    ∧ rows db' = delete id (rows db)
    ∧ ∀ r, r ∈ store_list db' → pk r ≠ id.
Proof.
  intros [p Hid].
  assert (delete_patient id db
          = (HTTP_204_NO_CONTENT, mktable (delete id (rows db)) (next_id db)))
    as Hdel.
  { unfold delete_patient, DetailPatientView, DestroyAPIView, store_get.
    rewrite Hid. cbn [pk]. unfold store_delete. by rewrite Hid. }
  assert (retrieve_patient id (mktable (delete id (rows db)) (next_id db))
          = (HTTP_404_NOT_FOUND, mktable (delete id (rows db)) (next_id db)))
    as Hget.
  { apply retrieve_patient_absent. cbn [rows]. apply lookup_delete_eq. }
  eexists. split; [exact Hdel|].
  rewrite Hdel, Hget. repeat split.
  intros r Hr. unfold store_list in Hr. cbn [rows] in Hr.
  apply list_elem_of_fmap in Hr as ([k q] & -> & Hkq).
  apply elem_of_map_to_list in Hkq. cbn [pk fst].
  intros ->. by rewrite lookup_delete_eq in Hkq.
Qed.

Lemma delete_then_retrieve_witness :
  ∃ db',
    delete_patient 1 (create_patient juan empty_table).2
      = (HTTP_204_NO_CONTENT, db')
    ∧ status_code (delete_patient 1 (create_patient juan empty_table).2).1
      = 204
    ∧ retrieve_patient 1 db' = (HTTP_404_NOT_FOUND, db')
    ∧ status_code (retrieve_patient 1 db').1 = 404
    ∧ rows db' = delete 1 (rows (create_patient juan empty_table).2)
    ∧ ∀ r, r ∈ store_list db' → pk r ≠ 1.
Proof.
  apply (delete_then_retrieve 1 (create_patient juan empty_table).2).
  eexists. reflexivity.
Defined.

(** C4. An update of an identifier that the table does not hold answers
    404 and leaves the table as it was, whatever the payload: the object is
    looked up before the body is validated. *)
Theorem update_absent id P (db : table Patient) :
  rows db !! id = None →
  update_patient id P db = (HTTP_404_NOT_FOUND, db)
  ∧ status_code (update_patient id P db).1 = 404.
Proof.
  intros Hid.
  assert (update_patient id P db = (HTTP_404_NOT_FOUND, db)) as ->; [|done].
  unfold update_patient, DetailPatientView, UpdateAPIView, store_get.
  by rewrite Hid.
Qed.

(** The empty payload is invalid, and the answer is still 404. *)
Lemma update_absent_witness :
  update_patient 7 ∅ empty_table = (HTTP_404_NOT_FOUND, empty_table)
  ∧ status_code (update_patient 7 ∅ empty_table).1 = 404.
Proof. apply (update_absent 7 ∅ empty_table). reflexivity. Defined.

(** C5. A payload that omits a declared patient field [f] (all of them are
    required) is answered with status 400 and the field errors, one message
    per failing field; [f] is among the failing fields, every failing field
    is a declared one, and the table is left as it was. *)
Theorem create_missing_field P f (db : table Patient) :
  f ∈ patient_fields → P !! f = None →
  ∃ es,
    create_patient P db = (HTTP_400_BAD_REQUEST es, db)
    ∧ status_code (create_patient P db).1 = 400
    ∧ from_wire P = inl es
    ∧ f ∈ failing es
    ∧ failing es ⊆ patient_fields.
Proof.
  intros Hf HP.
  destruct (from_wire_missing P f Hf HP) as (es & Hes & Hin).
  exists es.
  assert (create_patient P db = (HTTP_400_BAD_REQUEST es, db)) as Hc.
  { unfold create_patient, ListPatientsView, CreateAPIView. by rewrite Hes. }
  rewrite Hc. repeat split; try done.
  by apply from_wire_within with P.
Qed.

(** The scenario's patient without [email]. *)
Lemma create_missing_field_witness :
  ∃ es,
    create_patient (delete "email" juan) empty_table
      = (HTTP_400_BAD_REQUEST es, empty_table)
    ∧ status_code (create_patient (delete "email" juan) empty_table).1 = 400
    ∧ from_wire (delete "email" juan) = inl es
    ∧ "email" ∈ failing es
    ∧ failing es ⊆ patient_fields.
Proof.
  apply (create_missing_field (delete "email" juan) "email" empty_table).
  - apply elem_of_patient_fields. do 4 right. by left.
  - reflexivity.
Defined.

(** C6. When the update of [id] with the payload [P] is accepted (status
    200), the table held a record under [id], the updated record is stored
    under [id] with the fields of [P], its payload carries [id] as
    identifier, and the table holds the same identifiers as before: an
    [id] field in [P] is ignored. *)
Theorem update_keeps_id id P (db : table Patient) :
  status_code (update_patient id P db).1 = 200 →
  ∃ p,
    from_wire P = inr p
    ∧ is_Some (rows db !! id)
    ∧ update_patient id P db
      = (HTTP_200_OK (One (to_wire (mkstored id p))),
         mktable (<[id := p]> (rows db)) (next_id db))
    ∧ to_wire (mkstored id p) !! "id" = Some (JInt id)
    ∧ dom (<[id := p]> (rows db)) = dom (rows db).
Proof.
  unfold update_patient, DetailPatientView, UpdateAPIView, store_get,
    store_update.
  destruct (rows db !! id) as [old|] eqn:Hid; [|done].
  destruct (from_wire P) as [es|p] eqn:HP; [done|].
  destruct (invalid_fields p) as [|e es] eqn:Hp; [|done].
  intros _. exists p. repeat split; [by eexists|].
  rewrite dom_insert_L. apply elem_of_dom_2 in Hid. set_solver.
Qed.

(** The scenario's patient, renamed, with a foreign [id] in the body. *)
Lemma update_keeps_id_witness :
  ∃ p,
    from_wire (<["id" := JInt 999]> (<["first_name" := JStr "Juana"]> juan))
      = inr p
    ∧ is_Some (rows (create_patient juan empty_table).2 !! 1)
    ∧ update_patient 1
        (<["id" := JInt 999]> (<["first_name" := JStr "Juana"]> juan))
        (create_patient juan empty_table).2
      = (HTTP_200_OK (One (to_wire (mkstored 1 p))),
         mktable (<[1 := p]> (rows (create_patient juan empty_table).2))
           (next_id (create_patient juan empty_table).2))
    ∧ to_wire (mkstored 1 p) !! "id" = Some (JInt 1)
    ∧ dom (<[1 := p]> (rows (create_patient juan empty_table).2))
      = dom (rows (create_patient juan empty_table).2).
Proof.
  apply (update_keeps_id 1
           (<["id" := JInt 999]> (<["first_name" := JStr "Juana"]> juan))
           (create_patient juan empty_table).2).
  reflexivity.
Defined.

End PatientsClaims.

(** ** The FastAPI demo *)

Module MainFacts.
Import Main.

Section facts.
Context `{Pydantic}.






(** The encoder accepts the payload of an item exactly when the floats of
    the item are in range. *)
Lemma compliant_encoder item :
  compliant (jsonable_encoder item) = Item_finite item.
Proof.
  unfold compliant, jsonable_encoder, Item_finite.
  apply Bool.eq_true_iff_eq. rewrite bool_decide_eq_true.
  rewrite !map_Forall_insert by reflexivity.
  rewrite andb_true_iff.
  destruct (description item), (tax item), (is_offer item); cbn;
    pose proof (map_Forall_empty (M := gmap string)
                  (λ (_ : string) (v : json), json_compliant v = true));
    naive_solver.
Qed.

Lemma compliant_read_item item_id q : compliant (read_item item_id q) = true.
Proof.
  unfold compliant, read_item. apply bool_decide_eq_true.
  rewrite !map_Forall_insert by reflexivity.
  split; [done|]. split; [by destruct q|]. apply map_Forall_empty.
Qed.


Lemma app_POST_out_of_range body item :
  Item_validate body = inr item → Item_finite item = false →
  app (POST_items body) = (Some h_create_item, InternalServerError).
Proof.
  intros Hv Hfin. unfold app, respond, create_item.
  by rewrite Hv, compliant_encoder, Hfin.
Qed.

Lemma app_POST_invalid body es :
  Item_validate body = inl es →
  app (POST_items body) = (None, UnprocessableEntity es).
Proof. intros Hv. unfold app. by rewrite Hv. Qed.
End facts.

(** Both required fields are reported when the body is empty. *)
Example empty_body_errors :
  (@app strict (POST_items ∅)).2
  = UnprocessableEntity [("name", missing); ("price", missing)].
Proof. reflexivity. Qed.

(** An integer price is a number. *)
Example integer_price :
  (@app strict (POST_items (<["price" := JInt 35]> foo))).1
  = Some h_create_item.
Proof. reflexivity. Qed.

Example read_item_5 :
  read_item 5 (Some "somequery") !! "q" = Some (JStr "somequery")
  ∧ read_item 5 None !! "q" = Some JNull.
Proof. split; reflexivity. Qed.

End MainFacts.

Module MainClaims.
Import Main MainFacts.




(** C8. GET /items/{item_id}?q= runs [read_item] and answers with a payload
    of exactly two fields: [item_id] holds the path parameter, and [q] the
    query string, null without one. The answer depends on nothing else:
    wherever the request stands in a sequence of requests, the service
    gives this answer to it. *)
Theorem read_item_echo `{Pydantic} (item_id : Z) (q : option string) :
  app (GET_items item_id q) = (Some h_read_item, OK (read_item item_id q))
  ∧ read_item item_id q !! "item_id" = Some (JInt item_id)
  ∧ read_item item_id q !! "q"
    = Some (match q with Some s => JStr s | None => JNull end)
  ∧ dom (read_item item_id q) = {["item_id"; "q"]}
  ∧ ∀ before after : list request,
      serve (before ++ GET_items item_id q :: after) !! length before
      = Some (OK (read_item item_id q)).
Proof.
  assert (app (GET_items item_id q)
          = (Some h_read_item, OK (read_item item_id q))) as Happ.
  { unfold app, respond. by rewrite compliant_read_item. }
  split; [done|]. split; [reflexivity|]. split; [by destruct q|].
  split.
  - unfold read_item. rewrite !dom_insert_L, dom_empty_L. set_solver.
  - intros before after. unfold serve.
    rewrite fmap_app, fmap_cons, Happ. cbn [snd].
    rewrite lookup_app_r by (by rewrite length_fmap).
    by rewrite length_fmap, Nat.sub_diag.
Qed.







End MainClaims.

(** ** The patients views as a whole: what a request does to the table *)

Module ViewsFacts.
Import Patients PatientsFacts.

(** The three ways a request changes the table, and no other: a row is
    added, replaced or removed. *)
Lemma dispatch_cases r (db : table Patient) :
  (dispatch r db).2 = db
  ∨ (∃ body p,
       r = Collection POST body ∧ from_wire body = inr p
       ∧ dispatch r db
         = (HTTP_201_CREATED (to_wire (mkstored (next_id db) p)),
            mktable (<[next_id db := p]> (rows db)) (next_id db + 1)))
  ∨ (∃ id body p,
       (r = Detail PUT id body ∨ r = Detail PATCH id body)
       ∧ is_Some (rows db !! id)
       ∧ dispatch r db
         = (HTTP_200_OK (One (to_wire (mkstored id p))),
            mktable (<[id := p]> (rows db)) (next_id db)))
  ∨ (∃ id body,
       r = Detail DELETE id body ∧ is_Some (rows db !! id)
       ∧ dispatch r db
         = (HTTP_204_NO_CONTENT,
            mktable (delete id (rows db)) (next_id db))).
Proof.
  destruct r as [m body|m id body]; destruct m;
    cbn [dispatch ListPatientsView DetailPatientView]; try by left.
  - unfold CreateAPIView, store_create.
    destruct (from_wire body) as [es|p] eqn:Hb; [by left|].
    destruct (invalid_fields p) eqn:Hp; [|by left].
    right. left. by exists body, p.
  - unfold RetrieveAPIView. destruct (store_get id db); by left.
  - unfold RetrieveAPIView. destruct (store_get id db); by left.
  - unfold UpdateAPIView, store_get, store_update.
    destruct (rows db !! id) as [old|] eqn:Hid; [|by left].
    destruct (from_wire body) as [es|p] eqn:Hb; [by left|].
    destruct (invalid_fields p) eqn:Hp; [|by left].
    right. right. left. exists id, body, p.
    split; [by left|]. by split; [eexists|].
  - unfold UpdateAPIView_patch, store_get, store_update.
    destruct (rows db !! id) as [old|] eqn:Hid; [|by left].
    cbn [fields].
    destruct (from_wire_partial old body) as [es|p] eqn:Hb; [by left|].
    destruct (invalid_fields p) eqn:Hp; [|by left].
    right. right. left. exists id, body, p.
    split; [by right|]. by split; [eexists|].
  - unfold DestroyAPIView, store_get, store_delete.
    destruct (rows db !! id) as [old|] eqn:Hid; [|by left].
    cbn [pk]. rewrite Hid.
    right. right. right. exists id, body. by repeat split; try eexists.
Qed.

(** The identifiers in use stay positive and below the counter. *)
Lemma dispatch_range r (db : table Patient) :
  1 <= next_id db →
  (∀ id, is_Some (rows db !! id) → 1 <= id < next_id db) →
  1 <= next_id (dispatch r db).2
  ∧ ∀ id, is_Some (rows (dispatch r db).2 !! id) →
          1 <= id < next_id (dispatch r db).2.
Proof.
  intros Hn Hr.
  destruct (dispatch_cases r db)
    as [->|[(? & p & _ & _ & ->)|[(k & ? & p & _ & Hk & ->)
       |(k & ? & _ & Hk & ->)]]]; cbn [snd rows next_id].
  - done.
  - split; [lia|]. intros id. rewrite lookup_insert. case_decide as Hid.
    + subst. lia.
    + intros Hs. specialize (Hr id Hs). lia.
  - split; [done|]. intros id. rewrite lookup_insert. case_decide as Hid.
    + subst. intros _. by apply Hr.
    + apply Hr.
  - split; [done|]. intros id. rewrite lookup_delete.
    case_decide; [by intros []|apply Hr].
Qed.

(** An identifier that is below the counter and not in use stays so. *)
Lemma dispatch_retired r id (db : table Patient) :
  rows db !! id = None → id < next_id db →
  rows (dispatch r db).2 !! id = None ∧ id < next_id (dispatch r db).2.
Proof.
  intros Hid Hlt.
  destruct (dispatch_cases r db)
    as [->|[(? & p & _ & _ & ->)|[(k & ? & p & _ & Hk & ->)
       |(k & ? & _ & Hk & ->)]]]; cbn [snd rows next_id].
  - done.
  - split; [|lia]. rewrite lookup_insert_ne by lia. done.
  - split; [|done]. rewrite lookup_insert_ne; [done|].
    intros ->. rewrite Hid in Hk. by destruct Hk.
  - split; [|done]. rewrite lookup_delete. by case_decide.
Qed.

Lemma run_retired rs id (db : table Patient) :
  rows db !! id = None → id < next_id db →
  rows (run rs db).2 !! id = None.
Proof.
  revert db. induction rs as [|r rs IH]; intros db Hid Hlt; [done|].
  cbn [run snd].
  destruct (dispatch_retired r id db Hid Hlt). by apply IH.
Qed.

(** What a POST answered 201 did. *)
Lemma create_patient_created P (db : table Patient) :
  status_code (create_patient P db).1 = 201 →
  ∃ p, from_wire P = inr p
       ∧ create_patient P db
         = (HTTP_201_CREATED (to_wire (mkstored (next_id db) p)),
            mktable (<[next_id db := p]> (rows db)) (next_id db + 1)).
Proof.
  unfold create_patient, ListPatientsView, CreateAPIView, store_create.
  destruct (from_wire P) as [es|p]; [done|].
  destruct (invalid_fields p); [|done]. intros _. by exists p.
Qed.

(** What a PUT answered 200 did. *)
Lemma update_patient_updated id P (db : table Patient) :
  status_code (update_patient id P db).1 = 200 →
  ∃ p, update_patient id P db
       = (HTTP_200_OK (One (to_wire (mkstored id p))),
          mktable (<[id := p]> (rows db)) (next_id db)).
Proof.
  unfold update_patient, DetailPatientView, UpdateAPIView, store_get,
    store_update.
  destruct (rows db !! id) as [old|]; [|done].
  destruct (from_wire P) as [es|p]; [done|].
  destruct (invalid_fields p); [|done]. intros _. by exists p.
Qed.

(** The answer to a GET on an item depends on the row of the item only. *)
Lemma retrieve_patient_row id (db db' : table Patient) :
  rows db' !! id = rows db !! id →
  (retrieve_patient id db').1 = (retrieve_patient id db).1.
Proof.
  intros Heq.
  unfold retrieve_patient, DetailPatientView, RetrieveAPIView, store_get.
  rewrite Heq. by destruct (rows db !! id).
Qed.

(** The table after a PUT and after a DELETE, whatever the answer. *)
Lemma update_patient_rows id P (db : table Patient) :
  (update_patient id P db).2 = db
  ∨ ∃ p, (update_patient id P db).2
         = mktable (<[id := p]> (rows db)) (next_id db).
Proof.
  unfold update_patient, DetailPatientView, UpdateAPIView, store_get,
    store_update.
  destruct (rows db !! id) as [old|]; [|by left].
  destruct (from_wire P) as [es|p]; [by left|].
  destruct (invalid_fields p); [|by left]. right. by exists p.
Qed.

Lemma delete_patient_rows id (db : table Patient) :
  rows (delete_patient id db).2 = delete id (rows db).
Proof.
  unfold delete_patient, DetailPatientView, DestroyAPIView, store_get.
  destruct (rows db !! id) eqn:Hid; cbn [pk].
  - unfold store_delete. by rewrite Hid.
  - cbn [snd]. symmetry. by apply delete_id.
Qed.

(** A field of a partial update that validates: the body does not hold
    it and the stored value stays, or the body holds the new value. *)
Lemma partial_text_inr f old P s :
  partial_field text_field f old P = inr s →
  (P !! f = None ∧ s = old) ∨ P !! f = Some (JStr s).
Proof.
  unfold partial_field. destruct (P !! f) as [v|] eqn:Hf.
  - intros Hs%text_field_inr. right. congruence.
  - intros [= <-]. by left.
Qed.

Lemma partial_date_inr f old P d :
  partial_field date_field f old P = inr d →
  (P !! f = None ∧ d = old)
  ∨ ∃ s, P !! f = Some (JStr s) ∧ Date.parse s = Some d.
Proof.
  unfold partial_field. destruct (P !! f) as [v|] eqn:Hf.
  - intros (s & Hs & Hd)%date_field_inr. right. exists s. split; congruence.
  - intros [= <-]. by left.
Qed.

(** What an accepted partial update holds, field by field. *)
Lemma from_wire_partial_inr old P p :
  from_wire_partial old P = inr p →
  partial_field text_field "first_name" (first_name old) P
    = inr (first_name p)
  ∧ partial_field text_field "last_name" (last_name old) P
    = inr (last_name p)
  ∧ partial_field date_field "date_of_birth" (date_of_birth old) P
    = inr (date_of_birth p)
  ∧ partial_field text_field "contact_number" (contact_number old) P
    = inr (contact_number p)
  ∧ partial_field text_field "email" (email old) P = inr (email p)
  ∧ partial_field text_field "address" (address old) P = inr (address p)
  ∧ partial_field text_field "medical_history" (medical_history old) P
    = inr (medical_history p).
Proof.
  cbn [from_wire_partial PatientSerializer].
  intros (h7 & a7 & K7 & E7 & ->)%ap_inr.
  apply ap_inr in K7 as (h6 & a6 & K6 & E6 & ->).
  apply ap_inr in K6 as (h5 & a5 & K5 & E5 & ->).
  apply ap_inr in K5 as (h4 & a4 & K4 & E4 & ->).
  apply ap_inr in K4 as (h3 & a3 & K3 & E3 & ->).
  apply ap_inr in K3 as (h2 & a2 & K2 & E2 & ->).
  apply ap_inr in K2 as (h1 & a1 & K1 & E1 & ->).
  injection K1 as <-. done.
Qed.

(** The payload of a partially updated record, field by field. *)
Lemma to_wire_from_wire_partial id old P p f :
  from_wire_partial old P = inr p → f ∈ patient_fields →
  to_wire (mkstored id p) !! f
  = match P !! f with
    | Some v => Some v
    | None => to_wire (mkstored id old) !! f
    end.
Proof.
  intros (H1 & H2 & H3 & H4 & H5 & H6 & H7)%from_wire_partial_inr
    Hf%elem_of_patient_fields.
  destruct (to_wire_lookup (mkstored id p))
    as (_ & T1 & T2 & T3 & T4 & T5 & T6 & T7).
  destruct (to_wire_lookup (mkstored id old))
    as (_ & O1 & O2 & O3 & O4 & O5 & O6 & O7).
  cbn [fields] in *.
  apply partial_text_inr in H1, H2, H4, H5, H6, H7.
  apply partial_date_inr in H3.
  destruct Hf as [->|[->|[->|[->|[->|[->| ->]]]]]].
  - rewrite T1, O1. by destruct H1 as [[-> ->]| ->].
  - rewrite T2, O2. by destruct H2 as [[-> ->]| ->].
  - rewrite T3, O3. destruct H3 as [[-> ->]|(s & -> & Hs)]; [done|].
    by rewrite (DateFacts.format_parse _ _ Hs).
  - rewrite T4, O4. by destruct H4 as [[-> ->]| ->].
  - rewrite T5, O5. by destruct H5 as [[-> ->]| ->].
  - rewrite T6, O6. by destruct H6 as [[-> ->]| ->].
  - rewrite T7, O7. by destruct H7 as [[-> ->]| ->].
Qed.

End ViewsFacts.

Module ViewsProps.
Import Patients PatientsFacts ViewsFacts.

(** X1. A request that changes the table is a POST on the collection
    answered 201, a PUT or a PATCH on an item answered 200, or a DELETE on
    an item answered 204; a GET, HEAD or OPTIONS never changes it. *)
Theorem table_changes_only_by_writes r (db : table Patient) :
  (dispatch r db).2 ≠ db →
  (∃ body, r = Collection POST body ∧ status_code (dispatch r db).1 = 201)
  ∨ (∃ id body,
       (r = Detail PUT id body ∨ r = Detail PATCH id body)
       ∧ status_code (dispatch r db).1 = 200)
  ∨ (∃ id body,
       r = Detail DELETE id body ∧ status_code (dispatch r db).1 = 204).
Proof.
  intros Hne.
  destruct (dispatch_cases r db)
    as [?|[(b & p & -> & _ & Hd)|[(k & b & p & Hr & _ & Hd)
       |(k & b & -> & _ & Hd)]]]; [done|..]; rewrite Hd; cbn.
  - left. by exists b.
  - right. left. by exists k, b.
  - right. right. by exists k, b.
Qed.

(** A PATCH of the first name of a stored patient. *)
Lemma table_changes_only_by_writes_witness :
  (∃ body,
     Detail PATCH 1 {["first_name" := JStr "Juana"]} = Collection POST body
     ∧ status_code
         (dispatch (Detail PATCH 1 {["first_name" := JStr "Juana"]})
            (create_patient juan empty_table).2).1 = 201)
  ∨ (∃ id body,
       (Detail PATCH 1 {["first_name" := JStr "Juana"]} = Detail PUT id body
        ∨ Detail PATCH 1 {["first_name" := JStr "Juana"]}
          = Detail PATCH id body)
       ∧ status_code
           (dispatch (Detail PATCH 1 {["first_name" := JStr "Juana"]})
              (create_patient juan empty_table).2).1 = 200)
  ∨ (∃ id body,
       Detail PATCH 1 {["first_name" := JStr "Juana"]} = Detail DELETE id body
       ∧ status_code
           (dispatch (Detail PATCH 1 {["first_name" := JStr "Juana"]})
              (create_patient juan empty_table).2).1 = 204).
Proof.
  apply (table_changes_only_by_writes
           (Detail PATCH 1 {["first_name" := JStr "Juana"]})
           (create_patient juan empty_table).2).
  intros Heq.
  apply (f_equal (λ t : table Patient, first_name <$> rows t !! 1)) in Heq.
  vm_compute in Heq. discriminate Heq.
Defined.

(** X2. A request that is answered with an error status (400, 404 or 405)
    leaves the table exactly as it was. *)
Theorem errors_leave_table r (db : table Patient) :
  400 <= status_code (dispatch r db).1 → (dispatch r db).2 = db.
Proof.
  destruct (dispatch_cases r db)
    as [?|[(? & ? & _ & _ & ->)|[(? & ? & ? & _ & _ & ->)
       |(? & ? & _ & _ & ->)]]]; cbn; [done|lia..].
Qed.

(** A POST without [email] on a table that holds a patient. *)
Lemma errors_leave_table_witness :
  (dispatch (Collection POST (delete "email" juan))
     (create_patient juan empty_table).2).2
  = (create_patient juan empty_table).2.
Proof.
  apply (errors_leave_table (Collection POST (delete "email" juan))
           (create_patient juan empty_table).2).
  vm_compute. discriminate.
Defined.

(** X3. Whatever requests are handled, starting from the empty table, every
    identifier in the table is at least 1 and below the next identifier to
    assign: a new record never takes the identifier of a stored one. *)
Theorem identifiers_in_range (rs : list request) :
  table_wf (run rs empty_table).2
  ∧ (∀ id, is_Some (rows (run rs empty_table).2 !! id) → 1 <= id)
  ∧ rows (run rs empty_table).2 !! next_id (run rs empty_table).2 = None.
Proof.
  assert (∀ db : table Patient,
            1 <= next_id db →
            (∀ id, is_Some (rows db !! id) → 1 <= id < next_id db) →
            1 <= next_id (run rs db).2
            ∧ ∀ id, is_Some (rows (run rs db).2 !! id) →
                    1 <= id < next_id (run rs db).2) as Hrun.
  { induction rs as [|r rs IH]; intros db Hn Hr; [done|].
    cbn [run snd]. destruct (dispatch_range r db Hn Hr). by apply IH. }
  destruct (Hrun empty_table) as [Hn Hr].
  { done. }
  { intros id [f Hf]. cbn in Hf. by rewrite lookup_empty in Hf. }
  assert (table_wf (run rs empty_table).2) as Hwf.
  { intros id Hs. by apply Hr. }
  split; [done|]. split; [intros id Hs; by apply Hr|].
  by apply next_id_fresh.
Qed.

(** X4. Once a stored patient is deleted, its identifier stays free: after
    any further requests a GET on it is answered 404. *)
Theorem deleted_stays_deleted id (rs : list request) (db : table Patient) :
  table_wf db → is_Some (rows db !! id) →
  (retrieve_patient id (run rs (delete_patient id db).2).2).1
  = HTTP_404_NOT_FOUND.
Proof.
  intros Hwf Hid.
  assert ((delete_patient id db).2
          = mktable (delete id (rows db)) (next_id db)) as ->.
  { destruct Hid as [p Hp].
    unfold delete_patient, DetailPatientView, DestroyAPIView, store_get.
    rewrite Hp. cbn [pk]. unfold store_delete. by rewrite Hp. }
  rewrite retrieve_patient_absent; [done|].
  apply run_retired; cbn [rows next_id].
  - apply lookup_delete_eq.
  - by apply Hwf.
Qed.

(** Delete patient 1, then create again and try to update 1. *)
Lemma deleted_stays_deleted_witness :
  (retrieve_patient 1
     (run [Collection POST juan; Detail PUT 1 juan]
        (delete_patient 1 (create_patient juan empty_table).2).2).2).1
  = HTTP_404_NOT_FOUND.
Proof.
  apply (deleted_stays_deleted 1 [Collection POST juan; Detail PUT 1 juan]
           (create_patient juan empty_table).2).
  - apply (store_create_wf
             (mkPatient "Juan" "Perez" (Date.mkdate 1980 1 1) "1234567890"
                "juan@example.com" "123 Main St" "None")
             empty_table
             (mkstored 1
                (mkPatient "Juan" "Perez" (Date.mkdate 1980 1 1) "1234567890"
                   "juan@example.com" "123 Main St" "None"))).
    + apply empty_table_wf.
    + reflexivity.
  - eexists. reflexivity.
Defined.

(** X5. A GET on the collection is answered 200 with one payload for each
    stored record, its own, and with nothing else; on the empty table the
    list is empty. *)
Theorem list_reflects_table body (db : table Patient) :
  ∃ ps,
    ListPatientsView GET body db = (HTTP_200_OK (Many ps), db)
    ∧ length ps = size (rows db)
    ∧ (∀ p, p ∈ ps ↔
            ∃ id f, rows db !! id = Some f ∧ p = to_wire (mkstored id f))
    ∧ (rows db = ∅ → ps = []).
Proof.
  exists (to_wire <$> store_list db). split; [done|].
  unfold store_list. split; [|split].
  - by rewrite !length_fmap, length_map_to_list.
  - intros q. rewrite list_elem_of_fmap. split.
    + intros (r & -> & ([id f] & -> & Hf%elem_of_map_to_list)%list_elem_of_fmap).
      by exists id, f.
    + intros (id & f & Hf & ->). exists (mkstored id f). split; [done|].
      apply list_elem_of_fmap. exists (id, f). split; [done|].
      by apply elem_of_map_to_list.
  - intros ->. by rewrite map_to_list_empty.
Qed.

(** X6. On a table whose identifiers lie below the counter, a POST that is
    answered 201 adds exactly one record: the table holds one record more,
    and every record stored before is retrieved as before. *)
Theorem create_adds_one P id (db : table Patient) :
  table_wf db → status_code (create_patient P db).1 = 201 →
  size (rows (create_patient P db).2) = S (size (rows db))
  ∧ (is_Some (rows db !! id) →
     (retrieve_patient id (create_patient P db).2).1
     = (retrieve_patient id db).1).
Proof.
  intros Hwf (p & _ & ->)%create_patient_created. cbn [snd rows].
  pose proof (next_id_fresh db Hwf) as Hfresh. split.
  - by apply map_size_insert_None.
  - intros Hid. apply retrieve_patient_row. cbn [rows].
    apply lookup_insert_ne. intros <-. rewrite Hfresh in Hid. by destruct Hid.
Qed.

Lemma create_adds_one_witness :
  size (rows (create_patient juan (create_patient juan empty_table).2).2)
  = S (size (rows (create_patient juan empty_table).2))
  ∧ (is_Some (rows (create_patient juan empty_table).2 !! 1) →
     (retrieve_patient 1
        (create_patient juan (create_patient juan empty_table).2).2).1
     = (retrieve_patient 1 (create_patient juan empty_table).2).1).
Proof.
  apply (create_adds_one juan 1 (create_patient juan empty_table).2).
  - apply (store_create_wf
             (mkPatient "Juan" "Perez" (Date.mkdate 1980 1 1) "1234567890"
                "juan@example.com" "123 Main St" "None")
             empty_table
             (mkstored 1
                (mkPatient "Juan" "Perez" (Date.mkdate 1980 1 1) "1234567890"
                   "juan@example.com" "123 Main St" "None"))).
    + apply empty_table_wf.
    + reflexivity.
  - reflexivity.
Defined.

(** X7. A PUT or a DELETE on one identifier does not touch the other
    records: a GET on any other identifier is answered as before. *)
Theorem other_records_untouched id id' P (db : table Patient) :
  id' ≠ id →
  (retrieve_patient id' (update_patient id P db).2).1
  = (retrieve_patient id' db).1
  ∧ (retrieve_patient id' (delete_patient id db).2).1
    = (retrieve_patient id' db).1.
Proof.
  intros Hne. split; apply retrieve_patient_row.
  - destruct (update_patient_rows id P db) as [->|[p ->]]; [done|].
    cbn [rows]. by apply lookup_insert_ne.
  - rewrite delete_patient_rows. by apply lookup_delete_ne.
Qed.

Lemma other_records_untouched_witness :
  (retrieve_patient 1
     (update_patient 2 juan
        (create_patient juan (create_patient juan empty_table).2).2).2).1
  = (retrieve_patient 1
       (create_patient juan (create_patient juan empty_table).2).2).1
  ∧ (retrieve_patient 1
       (delete_patient 2
          (create_patient juan (create_patient juan empty_table).2).2).2).1
    = (retrieve_patient 1
         (create_patient juan (create_patient juan empty_table).2).2).1.
Proof.
  apply (other_records_untouched 2 1 juan
           (create_patient juan (create_patient juan empty_table).2).2).
  discriminate.
Defined.

(** X8. PUT is idempotent: the same PUT on the table that the first one
    left gives the same answer and the same table. *)
Theorem update_idempotent id P (db : table Patient) :
  update_patient id P (update_patient id P db).2 = update_patient id P db.
Proof.
  unfold update_patient, DetailPatientView, UpdateAPIView, store_get,
    store_update.
  destruct (rows db !! id) as [old|] eqn:Hid; cbn [snd]; [|by rewrite Hid].
  destruct (from_wire P) as [es|p] eqn:HP; cbn [snd]; [by rewrite Hid|].
  destruct (invalid_fields p) eqn:Hp; cbn [snd error_response];
    [|by rewrite Hid].
  cbn [rows next_id]. rewrite lookup_insert_eq.
  by rewrite insert_insert_eq.
Qed.

(** X9. A second DELETE on the same identifier is always answered 404 and
    changes nothing. *)
Theorem delete_twice id (db : table Patient) :
  delete_patient id (delete_patient id db).2
  = (HTTP_404_NOT_FOUND, (delete_patient id db).2).
Proof.
  assert (rows (delete_patient id db).2 !! id = None) as Hid.
  { rewrite delete_patient_rows. apply lookup_delete_eq. }
  unfold delete_patient at 1. unfold DetailPatientView, DestroyAPIView,
    store_get. by rewrite Hid.
Qed.

(** X10. After a PUT that is answered 200, a GET on the same identifier is
    answered with the status and the payload of the PUT. *)
Theorem update_then_retrieve id P (db : table Patient) :
  status_code (update_patient id P db).1 = 200 →
  (retrieve_patient id (update_patient id P db).2).1
  = (update_patient id P db).1.
Proof.
  intros (p & ->)%update_patient_updated. cbn [fst snd].
  rewrite (retrieve_patient_found id p); [done|].
  cbn [rows]. apply lookup_insert_eq.
Qed.

Lemma update_then_retrieve_witness :
  (retrieve_patient 1
     (update_patient 1 (<["first_name" := JStr "Juana"]> juan)
        (create_patient juan empty_table).2).2).1
  = (update_patient 1 (<["first_name" := JStr "Juana"]> juan)
       (create_patient juan empty_table).2).1.
Proof.
  apply (update_then_retrieve 1 (<["first_name" := JStr "Juana"]> juan)
           (create_patient juan empty_table).2).
  reflexivity.
Defined.

(** X11. On an identifier that the table does not hold, every method of
    the item view that works on an object (GET, PUT and DELETE, and HEAD
    and PATCH as well) is answered 404 and the table is left as it was. *)
Theorem absent_item_not_found m id body (db : table Patient) :
  rows db !! id = None → m ∈ object_methods →
  DetailPatientView m id body db = (HTTP_404_NOT_FOUND, db).
Proof.
  intros Hid Hm.
  assert (m = GET ∨ m = HEAD ∨ m = PUT ∨ m = PATCH ∨ m = DELETE)
    as [->|[->|[->|[->| ->]]]]
    by (unfold object_methods in Hm; set_solver);
    cbn [DetailPatientView];
    unfold RetrieveAPIView, UpdateAPIView, UpdateAPIView_patch,
      DestroyAPIView, store_get;
    by rewrite Hid.
Qed.

Lemma absent_item_not_found_witness :
  DetailPatientView DELETE 3 ∅ empty_table
  = (HTTP_404_NOT_FOUND, empty_table).
Proof.
  apply (absent_item_not_found DELETE 3 ∅ empty_table).
  - reflexivity.
  - unfold object_methods. do 4 apply list_elem_of_further.
    apply list_elem_of_here.
Defined.

(** X12. A PUT on a stored identifier with a body that the serializer
    rejects is answered 400 with the serializer's field errors, not 404,
    and the stored record is left as it was. *)
Theorem update_stored_rejected id P es (db : table Patient) :
  is_Some (rows db !! id) → from_wire P = inl es →
  update_patient id P db = (HTTP_400_BAD_REQUEST es, db).
Proof.
  intros [old Hid] HP.
  unfold update_patient, DetailPatientView, UpdateAPIView, store_get.
  by rewrite Hid, HP.
Qed.

Lemma update_stored_rejected_witness :
  update_patient 1 (delete "email" juan) (create_patient juan empty_table).2
  = (HTTP_400_BAD_REQUEST [("email", "This field is required.")],
     (create_patient juan empty_table).2).
Proof.
  apply (update_stored_rejected 1 (delete "email" juan)
           [("email", "This field is required.")]
           (create_patient juan empty_table).2).
  - eexists. reflexivity.
  - reflexivity.
Defined.

(** X18. A PATCH on a stored patient that is answered 200 changes the
    fields that the body holds and no other: the answer carries the
    identifier of the record, each declared field that the body holds with
    the value of the body, and each other declared field with its stored
    value; the record is stored under the same identifier. *)
Theorem patch_changes_sent_fields id P old (db : table Patient) :
  rows db !! id = Some old →
  status_code (DetailPatientView PATCH id P db).1 = 200 →
  ∃ R p,
    DetailPatientView PATCH id P db
    = (HTTP_200_OK (One R), mktable (<[id := p]> (rows db)) (next_id db))
    ∧ R = to_wire (mkstored id p)
    ∧ R !! "id" = Some (JInt id)
    ∧ ∀ f, f ∈ patient_fields →
           R !! f = match P !! f with
                    | Some v => Some v
                    | None => to_wire (mkstored id old) !! f
                    end.
Proof.
  intros Hid. cbn [DetailPatientView].
  unfold UpdateAPIView_patch, store_get, store_update. rewrite Hid.
  cbn [fields].
  destruct (from_wire_partial old P) as [es|p] eqn:HP; [done|].
  destruct (invalid_fields p) eqn:Hp; [|done].
  intros _. exists (to_wire (mkstored id p)), p.
  split; [done|]. split; [done|]. split; [reflexivity|].
  intros f Hf. by apply to_wire_from_wire_partial.
Qed.

(** A PATCH of the first name of the scenario's patient. *)
Lemma patch_changes_sent_fields_witness :
  ∃ R p,
    DetailPatientView PATCH 1 {["first_name" := JStr "Juana"]}
      (create_patient juan empty_table).2
    = (HTTP_200_OK (One R),
       mktable (<[1 := p]> (rows (create_patient juan empty_table).2))
         (next_id (create_patient juan empty_table).2))
    ∧ R = to_wire (mkstored 1 p)
    ∧ R !! "id" = Some (JInt 1)
    ∧ ∀ f, f ∈ patient_fields →
           R !! f
           = match ({["first_name" := JStr "Juana"]} : payload) !! f with
             | Some v => Some v
             | None =>
                 to_wire
                   (mkstored 1
                      (mkPatient "Juan" "Perez" (Date.mkdate 1980 1 1)
                         "1234567890" "juan@example.com" "123 Main St"
                         "None")) !! f
             end.
Proof.
  apply (patch_changes_sent_fields 1 {["first_name" := JStr "Juana"]}
           (mkPatient "Juan" "Perez" (Date.mkdate 1980 1 1) "1234567890"
              "juan@example.com" "123 Main St" "None")
           (create_patient juan empty_table).2);
    reflexivity.
Defined.

End ViewsProps.

(** ** The FastAPI demo: more about the validation of [Item] *)

Module MainProps.
Import Main MainFacts.

Lemma failures_ap {E A B} (g : validated E (A → B)) (x : validated E A) :
  failures (g <*> x) = (failures g ++ failures x)%list.
Proof.
  destruct g as [e1|h], x as [e2|a]; cbn; unfold failing;
    by rewrite ?fmap_app, ?app_nil_r.
Qed.

Lemma failures_required {T} f (validate : json → option T) body :
  failures (required f validate body) `sublist_of` [f].
Proof.
  unfold required. destruct (body !! f) as [v|]; [|done].
  destruct (validate v); [|done]. apply sublist_nil_l.
Qed.

Lemma failures_optional `{Pydantic} {T} f (validate : json → option T) body :
  failures (optional f validate body) `sublist_of` [f].
Proof.
  unfold optional. destruct (body !! f) as [v|]; [|apply sublist_nil_l].
  destruct (implicit_optional && is_null v); [apply sublist_nil_l|].
  destruct (validate v); [|done]. apply sublist_nil_l.
Qed.

Lemma required_inl {T} f (validate : json → option T) body es :
  required f validate body = inl es → es ≠ [].
Proof.
  unfold required. destruct (body !! f) as [v|]; [|by intros [= <-]].
  destruct (validate v); [done|by intros [= <-]].
Qed.

Lemma optional_inl `{Pydantic} {T} f (validate : json → option T) body es :
  optional f validate body = inl es → es ≠ [].
Proof.
  unfold optional. destruct (body !! f) as [v|]; [|done].
  destruct (implicit_optional && is_null v); [done|].
  destruct (validate v); [done|by intros [= <-]].
Qed.

Lemma ap_inl_nonempty {E A B} (g : validated E (A → B)) (x : validated E A) :
  (∀ es, g = inl es → es ≠ []) → (∀ es, x = inl es → es ≠ []) →
  ∀ es, g <*> x = inl es → es ≠ [].
Proof.
  intros Hg Hx es. destruct g as [e1|h], x as [e2|a]; cbn; intros [= <-].
  - specialize (Hg e1 eq_refl). by destruct e1.
  - by apply Hg.
  - by apply Hx.
Qed.

(** X14. A field that [Item] does not declare is ignored: adding it to a
    body changes neither the validation nor the answer of POST /items/. *)
Theorem unknown_field_ignored `{Pydantic} k v body :
  k ∉ item_fields →
  Item_validate (<[k := v]> body) = Item_validate body
  ∧ app (POST_items (<[k := v]> body)) = app (POST_items body).
Proof.
  intros Hk.
  assert (Item_validate (<[k := v]> body) = Item_validate body) as Hv.
  { unfold item_fields in Hk. unfold Item_validate, required, optional.
    rewrite !lookup_insert_ne; [done|..]; intros ->; apply Hk;
      repeat first [by left | right]. }
  split; [done|]. unfold app. by rewrite Hv.
Qed.

Lemma unknown_field_ignored_witness :
  @Item_validate strict (<["color" := JStr "red"]> foo)
  = @Item_validate strict foo
  ∧ @app strict (POST_items (<["color" := JStr "red"]> foo))
    = @app strict (POST_items foo).
Proof.
  apply (@unknown_field_ignored strict "color" (JStr "red") foo).
  unfold item_fields. intros Hin.
  repeat (apply elem_of_cons in Hin as [Hin|Hin]; [discriminate Hin|]).
  by apply elem_of_nil in Hin.
Defined.





(** X17. A rejected body is answered with at least one error, every error
    names a field of [Item], and the errors come in the order of the class
    body, each field at most once. *)
Theorem errors_in_declaration_order `{Pydantic} body es :
  Item_validate body = inl es →
  es ≠ [] ∧ failing es `sublist_of` item_fields
  ∧ app (POST_items body) = (None, UnprocessableEntity es).
Proof.
  intros Hes. split; [|split; [|by apply app_POST_invalid]].
  - revert es Hes. unfold Item_validate.
    repeat apply ap_inl_nonempty; try done; intros es Hes;
      first [ by apply required_inl in Hes | by apply optional_inl in Hes ].
  - change (failing es) with (failures (@inl _ Item es)). rewrite <- Hes.
    unfold Item_validate. rewrite !failures_ap.
    change (failures (inr mkItem)) with (@nil string). rewrite app_nil_l.
    change item_fields
      with ((((["name"] ++ ["description"]) ++ ["price"]) ++ ["tax"])
              ++ ["is_offer"])%list.
    repeat apply sublist_app;
      first [ apply failures_required | apply failures_optional ].
Qed.

Lemma errors_in_declaration_order_witness :
  [("name", missing); ("price", missing)] ≠ []
  ∧ failing [("name", missing); ("price", missing)] `sublist_of` item_fields
  ∧ @app strict (POST_items ∅)
    = (None, UnprocessableEntity [("name", missing); ("price", missing)]).
Proof.
  apply (@errors_in_declaration_order strict ∅
           [("name", missing); ("price", missing)]).
  reflexivity.
Defined.

End MainProps.
